(** * prometheus-ecoflow-exporter: a shallow embedding of main.go

    The exporter polls the EcoFlow cloud API once per scrape and republishes
    the reading through five Prometheus gauges.  This file embeds [main] up
    to the point where it starts to serve (option handling, the loading and
    deduplication of the configuration, the registration of the exporters),
    the constructor [CreateExporters], the collector methods [Describe] and
    [Collect] and the HTTP client [getEcoflowApiData], and states the
    properties of the specification, and further properties of the code,
    over them.

    Conventions.
    - A Go [string] is a Rocq [string] (a sequence of bytes).
    - A [float64] is a primitive binary64 float; gauges only store and
      return such values, no arithmetic is performed on them.
    - A [time.Duration] is its number of nanoseconds, a [Z].
    - A Go [error] is [option error]: [None] is [nil].
    - A Go map keyed by strings is a [gmap string _].
    - Calls into the standard library and the network go through an
      environment [Env]; the effects of a call (requests put on the wire,
      metrics sent on the channel, process exit) are threaded through the
      monad [Go]. *)

From Stdlib Require Import ZArith Ascii String PrimFloat.
From stdpp Require Import base option list gmap strings.

(** ** Basic Go types *)

Definition float64 : Type := PrimFloat.float.

Definition Duration : Type := Z.

Inductive error : Type :=
  | errorString (msg : string).

(** ** The client library: descriptors and gauges *)

Module prometheus.

Record GaugeOpts : Type := {
  Namespace : string;
  Subsystem : string;
  Name : string;
  Help : string;
  ConstLabels : gmap string string
}.

Record Desc : Type := {
  fqName : string;
  help : string;
  constLabels : gmap string string
}.

(** A gauge is its descriptor and the value it currently holds. *)
Record Gauge : Type := {
  desc : Desc;
  val : float64
}.

Definition is_empty (s : string) : bool := String.eqb s EmptyString.

Definition BuildFQName (namespace subsystem name : string) : string :=
  if is_empty name then EmptyString
  else if negb (is_empty namespace) && negb (is_empty subsystem)
    then namespace +:+ "_" +:+ subsystem +:+ "_" +:+ name
  else if negb (is_empty namespace) then namespace +:+ "_" +:+ name
  else if negb (is_empty subsystem) then subsystem +:+ "_" +:+ name
  else name.

(** A new gauge holds 0. *)
Definition NewGauge (opts : GaugeOpts) : Gauge :=
  {| desc := {| fqName := BuildFQName (Namespace opts) (Subsystem opts) (Name opts);
                help := Help opts;
                constLabels := ConstLabels opts |};
     val := 0%float |}.

Definition Set_ (g : Gauge) (v : float64) : Gauge :=
  {| desc := desc g; val := v |}.

End prometheus.

(** ** Device configuration *)

Definition namespace : string := "ecoflow".

Record Ecoflow : Type := {
  Description : string;
  SerialNumber : string;
  AppKey : string;
  SecretKey : string
}.

(** [func (params *Ecoflow) defaults()] *)
Definition defaults (params : Ecoflow) : Ecoflow :=
  if String.eqb (Description params) EmptyString
  then {| Description := SerialNumber params;
          SerialNumber := SerialNumber params;
          AppKey := AppKey params;
          SecretKey := SecretKey params |}
  else params.

(** The body of the first loop of [main]: an entry whose serial number is
    not yet a key of [ecoflowList] is copied, defaulted and stored under its
    serial number; an entry whose serial number is already a key is skipped. *)
Definition load_entry (ecoflowList : gmap string Ecoflow) (entry : Ecoflow)
  : gmap string Ecoflow :=
  match ecoflowList !! SerialNumber entry with
  | Some _ => ecoflowList
  | None =>
      let t := defaults entry in
      <[SerialNumber entry := t]> ecoflowList
  end.

(** [for ecoflow := range ecoflowListConfig { ... }], from the empty map. *)
Definition load_config (ecoflowListConfig : list Ecoflow) : gmap string Ecoflow :=
  fold_left load_entry ecoflowListConfig ∅.

(** ** The collector *)

Record EcoflowExporter : Type := {
  ecoflow : Ecoflow;
  checkTimeout : Duration;
  mutex : bool;
  checkError : prometheus.Gauge;
  soc : prometheus.Gauge;
  remaintime : prometheus.Gauge;
  wattsoutsum : prometheus.Gauge;
  wattsinsum : prometheus.Gauge
}.

Record EcoflowApiData : Type := {
  Soc : float64;
  RemainTime : float64;
  WattsOutSum : float64;
  WattsInSum : float64
}.

Record EcoflowApi : Type := {
  Code : string;
  Message : string;
  Data : EcoflowApiData
}.

(** The zero value [EcoflowApi{}]. *)
Definition EcoflowApi_zero : EcoflowApi :=
  {| Code := EmptyString;
     Message := EmptyString;
     Data := {| Soc := 0%float; RemainTime := 0%float;
                WattsOutSum := 0%float; WattsInSum := 0%float |} |}.

Definition device_labels (e : Ecoflow) : gmap string string :=
  <["description" := Description e]> (<["sn" := SerialNumber e]> ∅).

Definition gauge_opts (e : Ecoflow) (name help : string) : prometheus.GaugeOpts :=
  {| prometheus.Namespace := namespace;
     prometheus.Subsystem := EmptyString;
     prometheus.Name := name;
     prometheus.Help := help;
     prometheus.ConstLabels := device_labels e |}.

(** [CreateExporters] returns a pointer and an error; the pointer is
    [Some] when it is not nil, the error is [None] when it is nil. *)
Definition CreateExporters (e : Ecoflow) (timeout : Duration)
  : option EcoflowExporter * option error :=
  (Some {| ecoflow := e;
           checkTimeout := timeout;
           mutex := false;
           soc := prometheus.NewGauge (gauge_opts e "soc" "State of charge");
           remaintime := prometheus.NewGauge (gauge_opts e "remain_time" "Remain time");
           wattsoutsum := prometheus.NewGauge (gauge_opts e "watts_out_sum" "Current wats output");
           wattsinsum := prometheus.NewGauge (gauge_opts e "watts_in_sum" "Current wats input");
           checkError := prometheus.NewGauge (gauge_opts e "check_error" "check error") |},
   None).

(** What [Collect] sends on its channel is the gauge itself, a reference
    into the exporter: a reader sees the value the gauge holds. *)
Inductive Metric : Type :=
  | ref_soc
  | ref_remaintime
  | ref_wattsinsum
  | ref_wattsoutsum
  | ref_checkError.

Definition gauge_of (x : EcoflowExporter) (m : Metric) : prometheus.Gauge :=
  match m with
  | ref_soc => soc x
  | ref_remaintime => remaintime x
  | ref_wattsinsum => wattsinsum x
  | ref_wattsoutsum => wattsoutsum x
  | ref_checkError => checkError x
  end.

Definition with_mutex (x : EcoflowExporter) (b : bool) : EcoflowExporter :=
  {| ecoflow := ecoflow x; checkTimeout := checkTimeout x; mutex := b;
     checkError := checkError x; soc := soc x; remaintime := remaintime x;
     wattsoutsum := wattsoutsum x; wattsinsum := wattsinsum x |}.

Definition set_checkError (x : EcoflowExporter) (v : float64) : EcoflowExporter :=
  {| ecoflow := ecoflow x; checkTimeout := checkTimeout x; mutex := mutex x;
     checkError := prometheus.Set_ (checkError x) v; soc := soc x;
     remaintime := remaintime x; wattsoutsum := wattsoutsum x;
     wattsinsum := wattsinsum x |}.

Definition set_soc (x : EcoflowExporter) (v : float64) : EcoflowExporter :=
  {| ecoflow := ecoflow x; checkTimeout := checkTimeout x; mutex := mutex x;
     checkError := checkError x; soc := prometheus.Set_ (soc x) v;
     remaintime := remaintime x; wattsoutsum := wattsoutsum x;
     wattsinsum := wattsinsum x |}.

Definition set_remaintime (x : EcoflowExporter) (v : float64) : EcoflowExporter :=
  {| ecoflow := ecoflow x; checkTimeout := checkTimeout x; mutex := mutex x;
     checkError := checkError x; soc := soc x;
     remaintime := prometheus.Set_ (remaintime x) v;
     wattsoutsum := wattsoutsum x; wattsinsum := wattsinsum x |}.

Definition set_wattsinsum (x : EcoflowExporter) (v : float64) : EcoflowExporter :=
  {| ecoflow := ecoflow x; checkTimeout := checkTimeout x; mutex := mutex x;
     checkError := checkError x; soc := soc x; remaintime := remaintime x;
     wattsoutsum := wattsoutsum x;
     wattsinsum := prometheus.Set_ (wattsinsum x) v |}.

Definition set_wattsoutsum (x : EcoflowExporter) (v : float64) : EcoflowExporter :=
  {| ecoflow := ecoflow x; checkTimeout := checkTimeout x; mutex := mutex x;
     checkError := checkError x; soc := soc x; remaintime := remaintime x;
     wattsoutsum := prometheus.Set_ (wattsoutsum x) v;
     wattsinsum := wattsinsum x |}.

(** [Describe] sends the five descriptors, in this order. *)
Definition Describe (x : EcoflowExporter) (ch : list prometheus.Desc)
  : list prometheus.Desc :=
  ch ++ [prometheus.desc (soc x);
         prometheus.desc (remaintime x);
         prometheus.desc (wattsinsum x);
         prometheus.desc (wattsoutsum x);
         prometheus.desc (checkError x)].

(** ** The HTTP client library *)

Module http.

Definition MethodGet : string := "GET".

Record Client : Type := {
  Timeout : Duration
}.

(** [Client.deadline]: a client whose [Timeout] is not positive has no
    deadline; otherwise the deadline is [Timeout] after the current time. *)
Definition deadline (c : Client) (now : Z) : option Z :=
  if (0 <? Timeout c)%Z then Some (now + Timeout c)%Z else None.

Record Request : Type := {
  Method : string;
  URL : string;
  Header : gmap string (list string)
}.

(** [Header.Set] replaces the values stored under the key.  The keys are
    kept as the caller writes them: the canonical spelling that
    net/textproto gives a key is not modelled, and the four keys the
    exporter sets stay distinct under it. *)
Definition Header_Set (req : Request) (key value : string) : Request :=
  {| Method := Method req; URL := URL req;
     Header := <[key := [value]]> (Header req) |}.

(** A response body is a stream: the bytes it delivers and the error, if
    any, that ends it before the end of the stream. *)
Record ReadCloser : Type := {
  content : string;
  read_err : option error
}.

Record Response : Type := {
  StatusCode : Z;
  Body : ReadCloser
}.

End http.

(** [io.ReadAll] returns what it read and the error that stopped it, [nil]
    at the end of the stream. *)
Definition io_ReadAll (body : http.ReadCloser) : string * option error :=
  (http.content body, http.read_err body).

(** ** The environment

    The behaviour of the library calls whose result the program does not
    determine: whether net/url accepts the request URL, what the network
    answers to the n-th request of the process, and how encoding/json
    decodes a body into an [EcoflowApi] (it updates the value it is given
    and reports an error or [nil]). *)
Record Env : Type := {
  url_Parse : string -> option error;
  http_Do : nat -> http.Client -> http.Request -> http.Response + error;
  json_Unmarshal : string -> EcoflowApi -> EcoflowApi * option error
}.

(** ** Effects

    The state of the process that the collector acts on: the requests put
    on the wire so far and the metrics sent on the channel of [Collect]. *)
Record World : Type := {
  sent : list (http.Client * http.Request);
  chan : list Metric
}.

(** A call returns a value or ends the process ([os.Exit], reached through
    [log.Fatal]); deferred calls do not run when the process exits. *)
Inductive outcome (A : Type) : Type :=
  | Return (a : A)
  | Exit (status : Z).
Arguments Return {A} a.
Arguments Exit {A} status.

Definition Go (A : Type) : Type := World -> outcome A * World.

Definition ret {A : Type} (a : A) : Go A := fun w => (Return a, w).

Definition bind {A B : Type} (m : Go A) (k : A -> Go B) : Go B :=
  fun w =>
    match m w with
    | (Return a, w') => k a w'
    | (Exit status, w') => (Exit status, w')
    end.

Declare Scope go_scope.
Delimit Scope go_scope with go.
Notation "x <~ m ;; k" := (bind m (fun x => k))
  (at level 100, m at next level, right associativity) : go_scope.
Notation "m ;;; k" := (bind m (fun _ => k))
  (at level 100, right associativity) : go_scope.

(** [log.Fatal] prints and calls [os.Exit(1)]. *)
Definition log_Fatal {A : Type} (err : error) : Go A :=
  fun w => (Exit 1%Z, w).

(** [ch <- m] *)
Definition send (m : Metric) : Go unit :=
  fun w => (Return tt, {| sent := sent w; chan := chan w ++ [m] |}).

Section Exporter.

Variable env : Env.

(** [http.NewRequest(method, url, nil)] fails when the URL does not
    parse; the method here is always the valid [GET]. *)
Definition http_NewRequest (method url : string) : http.Request + error :=
  match url_Parse env url with
  | Some err => inr err
  | None => inl {| http.Method := method; http.URL := url; http.Header := ∅ |}
  end.

(** [httpClient.Do(req)]: one request goes on the wire, and the
    environment answers it. *)
Definition Client_Do (c : http.Client) (req : http.Request)
  : Go (http.Response + error) :=
  fun w => (Return (http_Do env (length (sent w)) c req),
            {| sent := sent w ++ [(c, req)]; chan := chan w |}).

Definition query_url (sn : string) : string :=
  "https://api.ecoflow.com/iot-service/open/api/device/queryDeviceQuota?sn=" +:+ sn.

(** [getEcoflowApiData].  The deferred [Body.Close] discards its error and
    does not take part in the result. *)
Definition getEcoflowApiData (ecoflow : Ecoflow) (checkTimeout : Duration)
  : Go (EcoflowApi * option error) :=
  let url := query_url (SerialNumber ecoflow) in
  let httpClient := {| http.Timeout := checkTimeout |} in
  match http_NewRequest http.MethodGet url with
  | inr err => log_Fatal err
  | inl req =>
      let req := http.Header_Set req "User-Agent" "prometheus-ecoflow-exporter" in
      let req := http.Header_Set req "Content-Type" "application/json" in
      let req := http.Header_Set req "appKey" (AppKey ecoflow) in
      let req := http.Header_Set req "secretKey" (SecretKey ecoflow) in
      (res <~ Client_Do httpClient req ;;
       match res with
       | inr getErr => ret (EcoflowApi_zero, Some getErr)
       | inl res =>
           match io_ReadAll (http.Body res) with
           | (_, Some readErr) => ret (EcoflowApi_zero, Some readErr)
           | (body, None) =>
               match json_Unmarshal env body EcoflowApi_zero with
               | (_, Some jsonErr) => ret (EcoflowApi_zero, Some jsonErr)
               | (ecoflowData, None) => ret (ecoflowData, None)
               end
           end
       end)%go
  end.

(** The deferred function of [Collect]: the five gauges are sent, then
    the mutex is released. *)
Definition Collect_deferred (x : EcoflowExporter) : Go EcoflowExporter :=
  (send ref_soc ;;;
   send ref_remaintime ;;;
   send ref_wattsinsum ;;;
   send ref_wattsoutsum ;;;
   send ref_checkError ;;;
   ret (with_mutex x false))%go.

(** The test [err != nil || "0" != res.Code]. *)
Definition check_failed (res : EcoflowApi) (err : option error) : bool :=
  match err with
  | Some _ => true
  | None => negb (String.eqb "0" (Code res))
  end.

(** [Collect]: the cycle as it runs once [Lock] has returned.  The result
    is the exporter after the cycle. *)
Definition Collect (x : EcoflowExporter) : Go EcoflowExporter :=
  let x := with_mutex x true in
  (r <~ getEcoflowApiData (ecoflow x) (checkTimeout x) ;;
   let '(res, err) := r in
   if check_failed res err then
     let x := set_checkError x 1%float in
     Collect_deferred x
   else
     let x := set_soc x (Soc (Data res)) in
     let x := set_remaintime x (RemainTime (Data res)) in
     let x := set_wattsinsum x (WattsInSum (Data res)) in
     let x := set_wattsoutsum x (WattsOutSum (Data res)) in
     Collect_deferred x)%go.

End Exporter.

(** The process state at start: nothing sent yet. *)
Definition World_init : World := {| sent := []; chan := [] |}.

(** ** A concrete environment, for running the code on examples *)

(** [stringContainsCTLByte] of net/url: a byte below the space or the
    byte 0x7f.  [url.Parse] rejects a URL that contains one. *)
Definition stringContainsCTLByte (s : string) : bool :=
  existsb (fun b => (nat_of_ascii b <? 32)%nat || (nat_of_ascii b =? 127)%nat)
          (list_ascii_of_string s).

Definition lab_url_Parse (url : string) : option error :=
  if stringContainsCTLByte url
  then Some (errorString "net/url: invalid control character in URL")
  else None.

(** JSON texts are written with an apostrophe for the quotation mark. *)
Definition json_text (s : string) : string :=
  string_of_list_ascii
    (map (fun b => if Ascii.eqb b "'"%char then ascii_of_nat 34 else b)
         (list_ascii_of_string s)).

Definition body_full : string :=
  json_text "{'code':'0','data':{'soc':55,'remainTime':120,'wattsOutSum':30,'wattsInSum':0}}".

Definition body_code1 : string :=
  json_text "{'code':'1','data':{'soc':10}}".

Definition reading_full : EcoflowApi :=
  {| Code := "0"; Message := EmptyString;
     Data := {| Soc := 55%float; RemainTime := 120%float;
                WattsOutSum := 30%float; WattsInSum := 0%float |} |}.

Definition reading_code1 : EcoflowApi :=
  {| Code := "1"; Message := EmptyString;
     Data := {| Soc := 10%float; RemainTime := 0%float;
                WattsOutSum := 0%float; WattsInSum := 0%float |} |}.

(** The decoder of the laboratory: it knows the two bodies above and
    rejects every other text. *)
Definition lab_Unmarshal (body : string) (v : EcoflowApi) : EcoflowApi * option error :=
  if String.eqb body body_full then (reading_full, None)
  else if String.eqb body body_code1 then (reading_code1, None)
  else (v, Some (errorString "invalid character looking for beginning of value")).

Definition timeout_error : error :=
  errorString "context deadline exceeded (Client.Timeout exceeded while awaiting headers)".

(** The network of the laboratory answers the n-th request with the n-th
    entry of a script, and times out once the script is exhausted. *)
Definition lab (script : list (http.Response + error)) : Env :=
  {| url_Parse := lab_url_Parse;
     http_Do := fun n _ _ => nth n script (inr timeout_error);
     json_Unmarshal := lab_Unmarshal |}.

Definition respond (status : Z) (body : string) : http.Response + error :=
  inl {| http.StatusCode := status;
         http.Body := {| http.content := body; http.read_err := None |} |}.

Definition device1 : Ecoflow :=
  {| Description := "garage"; SerialNumber := "R331ZEB4ZEA0001";
     AppKey := "key"; SecretKey := "secret" |}.

(** A device whose configured serial number holds a line feed. *)
Definition device_ctl : Ecoflow :=
  {| Description := "broken"; SerialNumber := String "010" "R331";
     AppKey := "key"; SecretKey := "secret" |}.

Definition five_seconds : Duration := 5000000000%Z.

Definition exporter_of (e : Ecoflow) (timeout : Duration) : EcoflowExporter :=
  default {| ecoflow := e; checkTimeout := timeout; mutex := false;
             checkError := prometheus.NewGauge (gauge_opts e EmptyString EmptyString);
             soc := prometheus.NewGauge (gauge_opts e EmptyString EmptyString);
             remaintime := prometheus.NewGauge (gauge_opts e EmptyString EmptyString);
             wattsoutsum := prometheus.NewGauge (gauge_opts e EmptyString EmptyString);
             wattsinsum := prometheus.NewGauge (gauge_opts e EmptyString EmptyString) |}
          (fst (CreateExporters e timeout)).

(** An exporter whose state-of-charge gauge holds 55. *)
Definition exporter_55 : EcoflowExporter :=
  set_soc (exporter_of device1 five_seconds) 55%float.

(** Two scrapes in a row: the exporter after the second cycle, when both
    cycles return. *)
Definition two_cycles (env : Env) (x : EcoflowExporter) : Go EcoflowExporter :=
  (x1 <~ Collect env x ;; Collect env x1)%go.

(** The failure modes of one exchange, as [getEcoflowApiData] tells them
    apart: the exchange itself fails, the body cannot be read to its end,
    or the body does not decode. *)
Inductive fetch_failure (env : Env) : http.Response + error -> error -> Prop :=
  | failure_exchange (getErr : error) :
      fetch_failure env (inr getErr) getErr
  | failure_read (res : http.Response) (readErr : error) :
      http.read_err (http.Body res) = Some readErr ->
      fetch_failure env (inl res) readErr
  | failure_decode (res : http.Response) (jsonErr : error) :
      http.read_err (http.Body res) = None ->
      snd (json_Unmarshal env (http.content (http.Body res)) EcoflowApi_zero) = Some jsonErr ->
      fetch_failure env (inl res) jsonErr.

(** The exchange delivers a reading: the body is read to its end and
    decodes to [r]. *)
Definition fetch_reading (env : Env) (answer : http.Response + error) (r : EcoflowApi) : Prop :=
  exists res, answer = inl res /\
    http.read_err (http.Body res) = None /\
    json_Unmarshal env (http.content (http.Body res)) EcoflowApi_zero = (r, None).

Definition telemetry (x : EcoflowExporter) : list float64 :=
  [prometheus.val (soc x); prometheus.val (remaintime x);
   prometheus.val (wattsoutsum x); prometheus.val (wattsinsum x)].

Definition five_gauges : list Metric :=
  [ref_soc; ref_remaintime; ref_wattsinsum; ref_wattsoutsum; ref_checkError].

(** [c] is the first entry of [cfg] with serial number [sn]: it stands at
    index [i] and no entry before it has that serial number. *)
Definition first_occurrence (cfg : list Ecoflow) (sn : string) (i : nat) (c : Ecoflow) : Prop :=
  cfg !! i = Some c /\ SerialNumber c = sn /\
  forall j c', (j < i)%nat -> cfg !! j = Some c' -> SerialNumber c' <> sn.

(** The distinct serial numbers of a configuration list. *)
Definition serial_numbers (cfg : list Ecoflow) : list string :=
  remove_dups (SerialNumber <$> cfg).

Definition entry_a1 : Ecoflow :=
  {| Description := EmptyString; SerialNumber := "A1"; AppKey := "k1"; SecretKey := "s1" |}.

Definition entry_b2 : Ecoflow :=
  {| Description := "second"; SerialNumber := "B2"; AppKey := "k2"; SecretKey := "s2" |}.

Definition entry_a1_again : Ecoflow :=
  {| Description := "again"; SerialNumber := "A1"; AppKey := "k3"; SecretKey := "s3" |}.

Definition config_dup : list Ecoflow := [entry_a1; entry_b2; entry_a1_again].

(** ** Start-up: the rest of [main] *)

Definition listenDefault : string := "0.0.0.0:9136".

Definition configFileDefault : string :=
  "/etc/prometheus/prometheus-ecoflow-exporter.yaml".

Definition metricsPathDefault : string := "/metrics".

(** [5 * time.Second] *)
Definition checkTimeoutDefault : Duration := (5 * 1000000000)%Z.

(** The four variables of [main].  After [pflag.Parse] each holds the
    value given on the command line, or its default when the flag was not
    given. *)
Record Options : Type := {
  opt_listen : string;
  opt_configFile : string;
  opt_metricsPath : string;
  opt_checkTimeout : Duration
}.

(** What start-up reads from outside the program: the process
    environment, [time.ParseDuration], the file system, the YAML decoder
    (it updates the slice it is given and reports an error or [nil]), the
    registry, which accepts or refuses a collector given the ones it
    already holds, and the order in which an iteration over a map delivers
    its entries, which Go leaves open. *)
Record Sys : Type := {
  environ : gmap string string;
  time_ParseDuration : string -> Duration + error;
  os_ReadFile : string -> string + error;
  yaml_Unmarshal : string -> list Ecoflow -> list Ecoflow * option error;
  prometheus_Register : list EcoflowExporter -> EcoflowExporter -> option error;
  map_range : gmap string Ecoflow -> list (string * Ecoflow)
}.

(** An iteration delivers every entry of the map once, in some order. *)
Definition fair_range (sys : Sys) : Prop :=
  forall m, map_range sys m ≡ₚ map_to_list m.

(** [os.Getenv]: the value of the variable, empty when it is not set. *)
Definition os_Getenv (sys : Sys) (key : string) : string :=
  default EmptyString (environ sys !! key).

(** Start-up ends the process by a panic or through [log.Fatal]. *)
Inductive crash : Type :=
  | Panic (err : error)
  | Fatal (msg : string) (err : error).

(** [if v == vDefault && len(os.Getenv(key)) > 0 { v = os.Getenv(key) }] *)
Definition from_env (sys : Sys) (value dflt key : string) : string :=
  if String.eqb value dflt && (0 <? String.length (os_Getenv sys key))%nat
  then os_Getenv sys key
  else value.

(** Lines 196-214 of [main]: the environment may replace a variable that
    still has its default value. *)
Definition main_options (sys : Sys) (flags : Options) : Options + crash :=
  let listen := from_env sys (opt_listen flags) listenDefault "LISTEN" in
  let configFile := from_env sys (opt_configFile flags) configFileDefault "CONFIG_FILE" in
  let metricsPath := from_env sys (opt_metricsPath flags) metricsPathDefault "METRICS_PATH" in
  if (opt_checkTimeout flags =? checkTimeoutDefault)%Z
     && (0 <? String.length (os_Getenv sys "CHECK_TIMEOUT"))%nat
  then
    match time_ParseDuration sys (os_Getenv sys "CHECK_TIMEOUT") with
    | inr err => inr (Panic err)
    | inl checkTimeout =>
        inl {| opt_listen := listen; opt_configFile := configFile;
               opt_metricsPath := metricsPath; opt_checkTimeout := checkTimeout |}
    end
  else
    inl {| opt_listen := listen; opt_configFile := configFile;
           opt_metricsPath := metricsPath;
           opt_checkTimeout := opt_checkTimeout flags |}.

(** The zero value [Ecoflow{}]. *)
Definition Ecoflow_zero : Ecoflow :=
  {| Description := EmptyString; SerialNumber := EmptyString;
     AppKey := EmptyString; SecretKey := EmptyString |}.

(** [prometheus.MustRegister] panics when the registry refuses. *)
Definition MustRegister (sys : Sys) (registered : list EcoflowExporter)
    (exporter : EcoflowExporter) : list EcoflowExporter + crash :=
  match prometheus_Register sys registered exporter with
  | Some err => inr (Panic err)
  | None => inl (registered ++ [exporter])
  end.

(** The second loop of [main], over the entries of the map in the order the
    iteration delivers them: an exporter is created and registered for each.
    The result is the list of the exporters registered. *)
Fixpoint register_all (sys : Sys) (entries : list Ecoflow) (checkTimeout : Duration)
    (registered : list EcoflowExporter) : list EcoflowExporter + crash :=
  match entries with
  | [] => inl registered
  | ecoflow :: rest =>
      match CreateExporters ecoflow checkTimeout with
      | (_, Some err) => inr (Fatal EmptyString err)
      | (None, None) => inr (Panic (errorString "invalid memory address or nil pointer dereference"))
      | (Some exporter, None) =>
          match MustRegister sys registered exporter with
          | inr c => inr c
          | inl registered => register_all sys rest checkTimeout registered
          end
      end
  end.

(** [main] up to the point where it starts to serve. *)
Definition main_startup (sys : Sys) (flags : Options)
  : Options * list EcoflowExporter + crash :=
  match main_options sys flags with
  | inr c => inr c
  | inl opts =>
      let ecoflowListConfig := replicate 256 Ecoflow_zero in
      match os_ReadFile sys (opt_configFile opts) with
      | inr err => inr (Fatal "Couldn't read config: " err)
      | inl config =>
          match yaml_Unmarshal sys config ecoflowListConfig with
          | (_, Some err) => inr (Fatal "Couldn't parse config: " err)
          | (ecoflowListConfig, None) =>
              let ecoflowList := load_config ecoflowListConfig in
              match register_all sys (snd <$> map_range sys ecoflowList)
                                 (opt_checkTimeout opts) [] with
              | inr c => inr c
              | inl exporters => inl (opts, exporters)
              end
          end
      end
  end.

(** ** Scrapes *)

(** The registry calls [Collect] once per scrape: [n] scrapes in a row. *)
Fixpoint scrapes (env : Env) (n : nat) (x : EcoflowExporter) : Go EcoflowExporter :=
  match n with
  | O => ret x
  | S n => (x1 <~ Collect env x ;; scrapes env n x1)%go
  end.


(** The environment in which every response has its status code replaced
    by [f] of it. *)
Definition restatus (f : Z -> Z) (env : Env) : Env :=
  {| url_Parse := url_Parse env;
     http_Do := fun n c req =>
       match http_Do env n c req with
       | inl res => inl {| http.StatusCode := f (http.StatusCode res);
                           http.Body := http.Body res |}
       | inr err => inr err
       end;
     json_Unmarshal := json_Unmarshal env |}.

(** The descriptors of a list of exporters, as [Describe] sends them. *)
Definition all_descriptors (xs : list EcoflowExporter) : list prometheus.Desc :=
  xs ≫= (fun x => Describe x []).

(** ** A laboratory for start-up *)

Definition lab_ParseDuration (s : string) : Duration + error :=
  if String.eqb s "10s" then inl 10000000000%Z
  else if String.eqb s "0" then inl 0%Z
  else inr (errorString "time: invalid duration").

Definition lab_ReadFile (files : gmap string string) (path : string) : string + error :=
  match files !! path with
  | Some content => inl content
  | None => inr (errorString "open: no such file or directory")
  end.

(** The YAML decoder of the laboratory: it knows one document, leaves the
    slice alone on the empty document and rejects every other text. *)
Definition lab_yaml (doc : string) (decoded : list Ecoflow)
    (text : string) (out : list Ecoflow) : list Ecoflow * option error :=
  if String.eqb text EmptyString then (out, None)
  else if String.eqb text doc then (decoded, None)
  else (out, Some (errorString "yaml: unmarshal errors")).

Definition lab_sys (vars : gmap string string) (files : gmap string string) : Sys :=
  {| environ := vars;
     time_ParseDuration := lab_ParseDuration;
     os_ReadFile := lab_ReadFile files;
     yaml_Unmarshal := lab_yaml "devices" config_dup;
     prometheus_Register := fun _ _ => None;
     map_range := fun m => reverse (map_to_list m) |}.

Definition flags_default : Options :=
  {| opt_listen := listenDefault; opt_configFile := configFileDefault;
     opt_metricsPath := metricsPathDefault; opt_checkTimeout := checkTimeoutDefault |}.

(** A file system with the configuration at its default path. *)
Definition lab_files : gmap string string :=
  {[ configFileDefault := "devices" ]}.

(** The same path, holding an empty file. *)
Definition lab_files_empty : gmap string string :=
  {[ configFileDefault := EmptyString ]}.

(** An environment whose decoder fails after it has filled in part of the
    reading. *)
Definition partial_decoder : Env :=
  {| url_Parse := lab_url_Parse;
     http_Do := fun _ _ _ => respond 200 "{";
     json_Unmarshal := fun _ _ =>
       (reading_code1, Some (errorString "unexpected end of JSON input")) |}.

(** A network on which every exchange times out. *)
Definition outage : Env :=
  {| url_Parse := lab_url_Parse;
     http_Do := fun _ _ _ => inr timeout_error;
     json_Unmarshal := lab_Unmarshal |}.

(** * Properties *)

(** ** Defaulting and deduplication of the configuration *)

Lemma defaults_SerialNumber (params : Ecoflow) :
  SerialNumber (defaults params) = SerialNumber params.
Proof. unfold defaults. by destruct (String.eqb _ _). Qed.

(** C5: [defaults] is total; it sets the description to the serial number
    when the description is empty, leaves a non-empty description as it is,
    so the description changes to the serial number only for an empty one,
    and it never touches the serial number or the two keys. *)
Theorem defaults_label (params : Ecoflow) :
  (Description params = EmptyString ->
     Description (defaults params) = SerialNumber params) /\
  (Description params <> EmptyString ->
     Description (defaults params) = Description params) /\
  SerialNumber (defaults params) = SerialNumber params /\
  AppKey (defaults params) = AppKey params /\
  SecretKey (defaults params) = SecretKey params.
Proof.
  unfold defaults.
  destruct (String.eqb_spec (Description params) EmptyString) as [Heq | Hne];
    simpl; split_and!; try done; intros; congruence.
Qed.

Lemma defaults_label_witness :
  Description (defaults entry_a1) = "A1" /\
  Description (defaults entry_b2) = "second".
Proof.
  split.
  - apply (proj1 (defaults_label entry_a1)). reflexivity.
  - apply (proj1 (proj2 (defaults_label entry_b2))). discriminate.
Defined.

Lemma load_entry_lookup (m : gmap string Ecoflow) (entry : Ecoflow) (sn : string) :
  load_entry m entry !! sn =
  match m !! sn with
  | Some e => Some e
  | None => if decide (SerialNumber entry = sn) then Some (defaults entry) else None
  end.
Proof.
  unfold load_entry.
  destruct (m !! SerialNumber entry) as [e0|] eqn:Hkey.
  - destruct (m !! sn) as [e|] eqn:Hsn; [done|].
    case_decide; [congruence | done].
  - simpl. case_decide as Hk.
    + subst sn. rewrite lookup_insert_eq. by rewrite Hkey.
    + rewrite lookup_insert_ne by done. by destruct (m !! sn).
Qed.

(** The loop invariant: a key already present keeps its entry; a key that
    is absent receives the defaulted first entry that carries it. *)
Lemma load_loop_lookup (cfg : list Ecoflow) :
  forall (m : gmap string Ecoflow) (sn : string),
    fold_left load_entry cfg m !! sn =
    match m !! sn with
    | Some e => Some e
    | None => (fun p => defaults (snd p)) <$> list_find (fun c => SerialNumber c = sn) cfg
    end.
Proof.
  induction cfg as [|c cfg IH]; intros m sn; simpl.
  - by destruct (m !! sn).
  - rewrite IH, load_entry_lookup.
    destruct (m !! sn) as [e|]; [done|].
    case_decide as Hc; [done|].
    destruct (list_find _ cfg) as [[i y]|]; done.
Qed.

Lemma load_loop_dom (cfg : list Ecoflow) :
  forall m : gmap string Ecoflow,
    dom (fold_left load_entry cfg m) = dom m ∪ list_to_set (SerialNumber <$> cfg).
Proof.
  induction cfg as [|c cfg IH]; intros m; simpl.
  - by rewrite (right_id_L ∅ (∪)).
  - rewrite IH, (assoc_L (∪)). f_equal.
    unfold load_entry.
    destruct (m !! SerialNumber c) as [e|] eqn:Hkey.
    + apply (elem_of_dom_2 (D := gset string)) in Hkey.
      apply set_eq. intros s.
      rewrite elem_of_union, elem_of_singleton.
      split; [by left | intros [Hs | ->]; [exact Hs | exact Hkey]].
    + by rewrite dom_insert_L, (comm_L (∪)).
Qed.

(** C4: after the loop of [main], the map holds an entry under [sn] exactly
    when the list has an entry with that serial number, that entry is the
    defaulted first occurrence in input order, it is stored under its own
    serial number, and the map has one entry per distinct serial number. *)
Theorem load_config_first_occurrence (cfg : list Ecoflow) :
  (forall sn e,
     load_config cfg !! sn = Some e <->
     exists i c, first_occurrence cfg sn i c /\ e = defaults c) /\
  (forall sn e, load_config cfg !! sn = Some e -> SerialNumber e = sn) /\
  size (load_config cfg) = length (serial_numbers cfg).
Proof.
  assert (Hchar : forall sn e,
     load_config cfg !! sn = Some e <->
     exists i c, first_occurrence cfg sn i c /\ e = defaults c).
  { intros sn e. unfold load_config, first_occurrence.
    rewrite load_loop_lookup, lookup_empty. split.
    - intros ([i c] & Hfind & ->)%fmap_Some.
      apply list_find_Some in Hfind as (Hi & Hsn & Hbefore).
      exists i, c. split_and!; [done..| |done].
      intros j c' Hlt Hj. by apply (Hbefore j c').
    - intros (i & c & (Hi & Hsn & Hbefore) & ->).
      apply fmap_Some. exists (i, c). split; [|done].
      apply list_find_Some. split_and!; [done..|].
      intros j y Hj Hlt. by apply (Hbefore j y). }
  split_and!; [exact Hchar| |].
  - intros sn e (i & c & (_ & Hsn & _) & ->)%Hchar.
    by rewrite defaults_SerialNumber.
  - unfold load_config, serial_numbers.
    rewrite <- (size_dom (D := gset string)), load_loop_dom, dom_empty_L, (left_id_L ∅ (∪)).
    rewrite <- (size_list_to_set (C := gset string) (remove_dups _)) by apply NoDup_remove_dups.
    f_equal. apply set_eq. intros s.
    by rewrite !elem_of_list_to_set, elem_of_remove_dups.
Qed.

Lemma load_config_first_occurrence_witness :
  load_config config_dup !! "A1" = Some (defaults entry_a1) /\
  size (load_config config_dup) = 2%nat.
Proof.
  split.
  - apply (proj1 (load_config_first_occurrence config_dup)).
    exists 0%nat, entry_a1. split; [|reflexivity].
    split_and!; [reflexivity | reflexivity | intros j c' Hlt; lia].
  - exact (proj2 (proj2 (load_config_first_occurrence config_dup))).
Defined.

(** ** Construction of an exporter *)

(** C10: [CreateExporters] returns a non-nil exporter and a nil error, for
    every device and every timeout; the exporter holds the device and the
    timeout it was given, its mutex is free and its five gauges hold 0. *)
Theorem CreateExporters_never_fails (e : Ecoflow) (timeout : Duration) :
  exists x : EcoflowExporter,
    CreateExporters e timeout = (Some x, None) /\
    ecoflow x = e /\ checkTimeout x = timeout /\ mutex x = false /\
    (prometheus.val ∘ gauge_of x) <$> five_gauges = replicate 5 0%float.
Proof. eexists. split; [reflexivity|]. by split_and!. Qed.

(** ** One request to the API *)

Ltac run_fetch :=
  unfold getEcoflowApiData, http_NewRequest, log_Fatal, bind, Client_Do, ret, io_ReadAll.

(** What a call of [getEcoflowApiData] does, in terms of the environment:
    it ends the process when the request cannot be built; otherwise it
    puts one request on the wire and returns what the answer amounts to. *)
Lemma getEcoflowApiData_run (env : Env) (e : Ecoflow) (t : Duration) (w : World) :
  match url_Parse env (query_url (SerialNumber e)) with
  | Some _ => getEcoflowApiData env e t w = (Exit 1%Z, w)
  | None =>
      exists req r err,
        http.Method req = http.MethodGet /\
        http.URL req = query_url (SerialNumber e) /\
        getEcoflowApiData env e t w =
          (Return (r, err),
           {| sent := sent w ++ [({| http.Timeout := t |}, req)]; chan := chan w |}) /\
        (forall e', err = Some e' <->
           fetch_failure env (http_Do env (length (sent w)) {| http.Timeout := t |} req) e') /\
        (err = None <->
           fetch_reading env (http_Do env (length (sent w)) {| http.Timeout := t |} req) r) /\
        (err <> None -> r = EcoflowApi_zero)
  end.
Proof.
  run_fetch.
  destruct (url_Parse env _) as [perr|]; [reflexivity|].
  match goal with |- context [http_Do env _ _ ?q] => exists q end.
  destruct (http_Do env _ _ _) as [res | getErr] eqn:Hdo.
  - destruct (http.read_err (http.Body res)) as [readErr|] eqn:Hread.
    + exists EcoflowApi_zero, (Some readErr). split_and!; try done.
      * intros e'. split.
        -- intros [= <-]. by apply failure_read.
        -- inversion 1; congruence.
      * split; [done|]. intros (res' & [= <-] & Hr & _). congruence.
    + destruct (json_Unmarshal env _ _) as [v [jsonErr|]] eqn:Hjson.
      * exists EcoflowApi_zero, (Some jsonErr). split_and!; try done.
        -- intros e'. split.
           ++ intros [= <-]. apply failure_decode; [done|]. by rewrite Hjson.
           ++ inversion 1 as [| |res' je Hr Hj]; subst; [congruence|].
              rewrite Hjson in Hj. simpl in Hj. congruence.
        -- split; [done|]. intros (res' & [= <-] & _ & Hj). congruence.
      * exists v, None. split_and!; try done.
        -- intros e'. split; [done|].
           inversion 1 as [| |res' je Hr Hj]; subst; [congruence|].
           rewrite Hjson in Hj. simpl in Hj. congruence.
        -- split; [|done]. intros _. by exists res.
  - exists EcoflowApi_zero, (Some getErr). split_and!; try done.
    + intros e'. split.
      * intros [= <-]. apply failure_exchange.
      * by inversion 1.
    + split; [done|]. by intros (res' & [=] & _).
Qed.

(** A call never sends on the channel of [Collect]. *)
Lemma getEcoflowApiData_chan (env : Env) (e : Ecoflow) (t : Duration) (w : World) :
  chan (snd (getEcoflowApiData env e t w)) = chan w.
Proof.
  pose proof (getEcoflowApiData_run env e t w) as H.
  destruct (url_Parse env _).
  - by rewrite H.
  - destruct H as (req & r & err & _ & _ & -> & _). done.
Qed.

(** C3, as the code has it: when the request can be built, a call puts
    exactly one request on the wire and returns; it returns an error exactly
    when the exchange fails, the body cannot be read to its end or the body
    does not decode, and otherwise it returns the decoded reading as it is,
    whatever its code.  The status code of the response plays no part. *)
Theorem getEcoflowApiData_error_iff (env : Env) (e : Ecoflow) (t : Duration) (w : World) :
  url_Parse env (query_url (SerialNumber e)) = None ->
  exists req r err w',
    getEcoflowApiData env e t w = (Return (r, err), w') /\
    sent w' = sent w ++ [({| http.Timeout := t |}, req)] /\
    http.URL req = query_url (SerialNumber e) /\
    (forall e', err = Some e' <->
       fetch_failure env (http_Do env (length (sent w)) {| http.Timeout := t |} req) e') /\
    (err = None <->
       fetch_reading env (http_Do env (length (sent w)) {| http.Timeout := t |} req) r).
Proof.
  intros Hurl. pose proof (getEcoflowApiData_run env e t w) as H.
  rewrite Hurl in H. destruct H as (req & r & err & _ & Hu & Hrun & Hfail & Hread & _).
  exists req, r, err. eexists. split; [exact Hrun|]. by split_and!.
Qed.

Lemma getEcoflowApiData_error_iff_witness :
  url_Parse (lab [respond 200 body_code1]) (query_url (SerialNumber device1)) = None /\
  exists req r err w',
    getEcoflowApiData (lab [respond 200 body_code1]) device1 five_seconds World_init
      = (Return (r, err), w') /\
    sent w' = sent World_init ++ [({| http.Timeout := five_seconds |}, req)] /\
    http.URL req = query_url (SerialNumber device1) /\
    (forall e', err = Some e' <->
       fetch_failure (lab [respond 200 body_code1])
         (http_Do (lab [respond 200 body_code1]) (length (sent World_init))
                  {| http.Timeout := five_seconds |} req) e') /\
    (err = None <->
       fetch_reading (lab [respond 200 body_code1])
         (http_Do (lab [respond 200 body_code1]) (length (sent World_init))
                  {| http.Timeout := five_seconds |} req) r).
Proof.
  split; [reflexivity|].
  apply (getEcoflowApiData_error_iff (lab [respond 200 body_code1]) device1
           five_seconds World_init).
  reflexivity.
Defined.

(** C3, against the claim: the network answers with status 500 and a body
    that decodes; the call returns the reading and no error. *)
Lemma getEcoflowApiData_status_500_no_error :
  (forall c req, http_Do (lab [respond 500 body_full]) 0 c req = respond 500 body_full) /\
  exists w',
    getEcoflowApiData (lab [respond 500 body_full]) device1 five_seconds World_init
      = (Return (reading_full, None), w').
Proof. split; [reflexivity|]. eexists. vm_compute. reflexivity. Qed.

(** C6, as the code has it: the timeout is not examined.  Whatever the
    duration, when the request can be built it goes on the wire once, sent
    by a client whose [Timeout] is that duration, and whatever the network
    answers is returned; a client whose [Timeout] is zero or negative has
    no deadline. *)
Theorem getEcoflowApiData_timeout_unchecked
    (env : Env) (e : Ecoflow) (t : Duration) (w : World) :
  url_Parse env (query_url (SerialNumber e)) = None ->
  (exists req r err w',
     getEcoflowApiData env e t w = (Return (r, err), w') /\
     sent w' = sent w ++ [({| http.Timeout := t |}, req)] /\
     (forall e', err = Some e' ->
        fetch_failure env (http_Do env (length (sent w)) {| http.Timeout := t |} req) e')) /\
  ((t <= 0)%Z -> forall now, http.deadline {| http.Timeout := t |} now = None).
Proof.
  intros Hurl. split.
  - pose proof (getEcoflowApiData_run env e t w) as H.
    rewrite Hurl in H. destruct H as (req & r & err & _ & _ & Hrun & Hfail & _).
    exists req, r, err. eexists. split; [exact Hrun|]. split; [done|].
    intros e' He. by apply Hfail.
  - intros Ht now. unfold http.deadline. simpl.
    destruct (Z.ltb_spec 0 t); [lia | done].
Qed.

Lemma getEcoflowApiData_timeout_unchecked_witness :
  url_Parse (lab [respond 200 body_full]) (query_url (SerialNumber device1)) = None /\
  (exists req r err w',
     getEcoflowApiData (lab [respond 200 body_full]) device1 (-1)%Z World_init
       = (Return (r, err), w') /\
     sent w' = sent World_init ++ [({| http.Timeout := (-1)%Z |}, req)] /\
     (forall e', err = Some e' ->
        fetch_failure (lab [respond 200 body_full])
          (http_Do (lab [respond 200 body_full]) (length (sent World_init))
                   {| http.Timeout := (-1)%Z |} req) e')) /\
  forall now, http.deadline {| http.Timeout := (-1)%Z |} now = None.
Proof.
  pose proof (getEcoflowApiData_timeout_unchecked (lab [respond 200 body_full]) device1
                (-1)%Z World_init eq_refl) as [Hrun Hdl].
  split; [reflexivity|]. split; [exact Hrun|]. apply Hdl. lia.
Defined.

(** C6, against the claim: with a timeout of zero, and with a negative one,
    the request is performed by a client without deadline and the reading
    is returned; no error reports the timeout. *)
Lemma getEcoflowApiData_zero_timeout_performed :
  (exists req,
     getEcoflowApiData (lab [respond 200 body_full]) device1 0%Z World_init
       = (Return (reading_full, None),
          {| sent := [({| http.Timeout := 0%Z |}, req)]; chan := [] |})) /\
  (exists req,
     getEcoflowApiData (lab [respond 200 body_full]) device1 (-1)%Z World_init
       = (Return (reading_full, None),
          {| sent := [({| http.Timeout := (-1)%Z |}, req)]; chan := [] |})) /\
  http.deadline {| http.Timeout := 0%Z |} 1000%Z = None /\
  http.deadline {| http.Timeout := (-1)%Z |} 1000%Z = None.
Proof.
  split_and!; [eexists; vm_compute; reflexivity ..| reflexivity | reflexivity].
Qed.

(** C7, as the code has it: a call ends the process exactly when the
    request cannot be built ([http.NewRequest] returns an error, which goes
    to [log.Fatal]); in every other case it returns, whatever the network
    answers, and the failure is the error it returns. *)
Theorem getEcoflowApiData_exit_iff (env : Env) (e : Ecoflow) (t : Duration) (w : World) :
  ((exists status w', getEcoflowApiData env e t w = (Exit status, w')) <->
   (exists err, http_NewRequest env http.MethodGet (query_url (SerialNumber e)) = inr err)) /\
  ((exists r err w', getEcoflowApiData env e t w = (Return (r, err), w')) <->
   (exists req, http_NewRequest env http.MethodGet (query_url (SerialNumber e)) = inl req)).
Proof.
  pose proof (getEcoflowApiData_run env e t w) as H.
  unfold http_NewRequest.
  destruct (url_Parse env _) as [perr|].
  - rewrite H. split; split.
    + intros _. by exists perr.
    + intros _. by exists 1%Z, w.
    + by intros (r & err & w' & [=]).
    + by intros (req & [=]).
  - destruct H as (req & r & err & _ & _ & -> & _). split; split.
    + by intros (status & w' & [=]).
    + by intros (err' & [=]).
    + intros _. by eexists.
    + intros _. by exists r, err; eexists.
Qed.

(** C7, against the claim: the serial number of the device holds a line
    feed, the URL does not parse, and the call ends the process. *)
Lemma getEcoflowApiData_exits_on_control_byte :
  getEcoflowApiData (lab [respond 200 body_full]) device_ctl five_seconds World_init
    = (Exit 1%Z, World_init).
Proof. vm_compute. reflexivity. Qed.

(** ** The collection cycle *)

Lemma check_failed_true (res : EcoflowApi) (err : option error) :
  check_failed res err = true <-> err <> None \/ Code res <> "0".
Proof.
  unfold check_failed. destruct err as [e|].
  - split; [by left | done].
  - destruct (String.eqb_spec "0" (Code res)) as [Heq | Hne]; simpl.
    + split; [done | intros [? | ?]; congruence].
    + split; [intros _; right; congruence | done].
Qed.

Lemma one_is_not_zero : 1%float <> 0%float.
Proof.
  intros H. apply (f_equal PrimFloat.is_zero) in H. vm_compute in H. discriminate.
Qed.

Ltac run_collect Hfetch :=
  unfold Collect, bind; cbn [ecoflow checkTimeout with_mutex];
  rewrite Hfetch; cbn beta iota.

(** C2: when the call to the API returns an error, or a reading whose code
    is not "0", the cycle returns with the check-error gauge at 1 and the
    four telemetry gauges as they were before the cycle. *)
Theorem Collect_failure_keeps_telemetry
    (env : Env) (x : EcoflowExporter) (w w1 : World)
    (res : EcoflowApi) (err : option error) :
  getEcoflowApiData env (ecoflow x) (checkTimeout x) w = (Return (res, err), w1) ->
  err <> None \/ Code res <> "0" ->
  exists x' w',
    Collect env x w = (Return x', w') /\
    prometheus.val (checkError x') = 1%float /\
    soc x' = soc x /\
    remaintime x' = remaintime x /\
    wattsoutsum x' = wattsoutsum x /\
    wattsinsum x' = wattsinsum x.
Proof.
  intros Hfetch Hfail%check_failed_true.
  run_collect Hfetch. rewrite Hfail.
  eexists _, _. split; [reflexivity|]. by split_and!.
Qed.

Lemma Collect_failure_keeps_telemetry_witness :
  getEcoflowApiData (lab [respond 200 body_code1])
      (ecoflow exporter_55) (checkTimeout exporter_55) World_init
    = (Return (reading_code1, None),
       snd (getEcoflowApiData (lab [respond 200 body_code1])
              (ecoflow exporter_55) (checkTimeout exporter_55) World_init)) /\
  ((None : option error) <> None \/ Code reading_code1 <> "0") /\
  exists x' w',
    Collect (lab [respond 200 body_code1]) exporter_55 World_init = (Return x', w') /\
    prometheus.val (checkError x') = 1%float /\
    soc x' = soc exporter_55 /\
    remaintime x' = remaintime exporter_55 /\
    wattsoutsum x' = wattsoutsum exporter_55 /\
    wattsinsum x' = wattsinsum exporter_55.
Proof.
  assert (Hcode : (None : option error) <> None \/ Code reading_code1 <> "0")
    by (right; discriminate).
  split; [reflexivity|]. split; [exact Hcode|].
  exact (Collect_failure_keeps_telemetry (lab [respond 200 body_code1]) exporter_55
           World_init _ reading_code1 None eq_refl Hcode).
Defined.

(** The success branch: the four telemetry gauges take the decoded values;
    the check-error gauge is not written and keeps what it held. *)
Lemma Collect_success
    (env : Env) (x : EcoflowExporter) (w w1 : World) (res : EcoflowApi) :
  getEcoflowApiData env (ecoflow x) (checkTimeout x) w = (Return (res, None), w1) ->
  Code res = "0" ->
  exists x' w',
    Collect env x w = (Return x', w') /\
    checkError x' = checkError x /\
    telemetry x' = [Soc (Data res); RemainTime (Data res);
                    WattsOutSum (Data res); WattsInSum (Data res)].
Proof.
  intros Hfetch Hcode.
  assert (Hok : check_failed res None = false).
  { destruct (check_failed res None) eqn:Hc; [|done].
    apply check_failed_true in Hc as [? | ?]; congruence. }
  run_collect Hfetch. rewrite Hok.
  eexists _, _. split; [reflexivity|]. by split.
Qed.

(** The success cycle of the specification, on a new exporter. *)
Example Collect_success_fresh :
  exists x' w',
    Collect (lab [respond 200 body_full]) (exporter_of device1 five_seconds) World_init
      = (Return x', w') /\
    prometheus.val (checkError x') = 0%float /\
    telemetry x' = [55%float; 120%float; 30%float; 0%float].
Proof. eexists _, _. split; [vm_compute; reflexivity|]. by split. Qed.

(** C1, at the failing input: the first scrape times out, the second
    receives code "0".  After the second cycle the telemetry gauges hold
    the decoded values and the check-error gauge still holds 1. *)
Theorem Collect_success_after_failure_check_error :
  exists x2 w2,
    two_cycles (lab [inr timeout_error; respond 200 body_full])
               (exporter_of device1 five_seconds) World_init = (Return x2, w2) /\
    telemetry x2 = [55%float; 120%float; 30%float; 0%float] /\
    prometheus.val (checkError x2) = 1%float /\
    prometheus.val (checkError x2) <> 0%float.
Proof.
  eexists _, _. split; [vm_compute; reflexivity|].
  split_and!; [reflexivity | reflexivity | exact one_is_not_zero].
Qed.

(** Last-known-good, as in the specification: a success with
    state-of-charge 55, then a transport error. *)
Example Collect_failure_after_success :
  exists x2 w2,
    two_cycles (lab [respond 200 body_full; inr timeout_error])
               (exporter_of device1 five_seconds) World_init = (Return x2, w2) /\
    prometheus.val (checkError x2) = 1%float /\
    prometheus.val (soc x2) = 55%float.
Proof. eexists _, _. split; [vm_compute; reflexivity|]. by split. Qed.

(** C8, as the code has it: when the call to the API returns, with a
    reading or with an error, the cycle returns, the five gauges have been
    sent on the channel in the order state-of-charge, remaining-runtime,
    watts-in, watts-out, check-error, and the mutex is free again; when the
    call ends the process, so does the cycle, and nothing was sent. *)
Theorem Collect_emits_five (env : Env) (x : EcoflowExporter) (w : World) :
  match getEcoflowApiData env (ecoflow x) (checkTimeout x) w with
  | (Return _, w1) =>
      exists x',
        Collect env x w =
          (Return x', {| sent := sent w1; chan := chan w ++ five_gauges |}) /\
        mutex x' = false
  | (Exit status, w1) =>
      Collect env x w = (Exit status, w1) /\ chan w1 = chan w
  end.
Proof.
  pose proof (getEcoflowApiData_chan env (ecoflow x) (checkTimeout x) w) as Hchan.
  destruct (getEcoflowApiData env (ecoflow x) (checkTimeout x) w)
    as [[[res err] | status] w1] eqn:Hfetch; simpl in Hchan.
  - run_collect Hfetch.
    destruct (check_failed res err); eexists;
      (split;
       [ unfold Collect_deferred, bind, send, ret; simpl;
         rewrite Hchan, <- !(assoc_L (++)); reflexivity
       | reflexivity ]).
  - split; [|done]. by run_collect Hfetch.
Qed.

(** C8, against the claim: for the device whose serial number holds a line
    feed the cycle ends the process and the channel has received nothing. *)
Lemma Collect_exit_emits_nothing :
  Collect (lab [respond 200 body_full]) (exporter_of device_ctl five_seconds) World_init
    = (Exit 1%Z, World_init) /\
  chan World_init = [].
Proof. split; [vm_compute; reflexivity | reflexivity]. Qed.

(** * Further properties of the code *)

(** ** The configuration loop *)

Lemma load_config_lookup (cfg : list Ecoflow) (sn : string) :
  load_config cfg !! sn =
  (fun p => defaults (snd p)) <$> list_find (fun c => SerialNumber c = sn) cfg.
Proof. unfold load_config. by rewrite load_loop_lookup, lookup_empty. Qed.

Lemma load_config_dom (cfg : list Ecoflow) :
  dom (load_config cfg) = list_to_set (SerialNumber <$> cfg).
Proof.
  unfold load_config. by rewrite load_loop_dom, dom_empty_L, (left_id_L ∅ (∪)).
Qed.

(** Every entry of the working set stands under its own serial number and
    is unchanged by a second defaulting. *)
Lemma load_config_entry (cfg : list Ecoflow) (sn : string) (e : Ecoflow) :
  load_config cfg !! sn = Some e ->
  SerialNumber e = sn /\ defaults e = e /\ exists c, c ∈ cfg /\ e = defaults c.
Proof.
  rewrite load_config_lookup.
  intros ([i c] & Hfind & ->)%fmap_Some.
  apply list_find_Some in Hfind as (Hi & Hsn & _). simpl.
  split_and!.
  - by rewrite defaults_SerialNumber.
  - unfold defaults.
    destruct (String.eqb_spec (Description c) EmptyString) as [Hd | Hd]; simpl.
    + destruct (String.eqb_spec (SerialNumber c) EmptyString); reflexivity.
    + destruct (String.eqb_spec (Description c) EmptyString); [done | reflexivity].
  - exists c. split; [|done]. by eapply list_elem_of_lookup_2.
Qed.

(** Entries appended to the configuration never replace or remove a
    device that the shorter list already yields: the working set of the
    shorter list is contained in that of the longer one. *)
Theorem load_config_app_subseteq (cfg more : list Ecoflow) :
  load_config cfg ⊆ load_config (cfg ++ more).
Proof.
  apply map_subseteq_spec. intros sn e Hsn.
  unfold load_config in *. rewrite fold_left_app, load_loop_lookup.
  by rewrite Hsn.
Qed.

(** When no serial number occurs twice, nothing is dropped: every entry is
    found under its serial number, defaulted, and the working set has as
    many entries as the list. *)
Theorem load_config_NoDup_keeps_all (cfg : list Ecoflow) :
  NoDup (SerialNumber <$> cfg) ->
  (forall c, c ∈ cfg -> load_config cfg !! SerialNumber c = Some (defaults c)) /\
  size (load_config cfg) = length cfg.
Proof.
  intros Hnd. split.
  - intros c Hc.
    apply list_elem_of_lookup in Hc as [i Hi].
    rewrite load_config_lookup. apply fmap_Some. exists (i, c). split; [|done].
    apply list_find_Some. split_and!; [done..|].
    intros j c' Hj Hlt Heq.
    assert (i = j) as ->; [|lia].
    eapply NoDup_lookup; [exact Hnd | |].
    + by rewrite list_lookup_fmap, Hi.
    + rewrite list_lookup_fmap, Hj. simpl. by f_equal.
  - rewrite <- (size_dom (D := gset string)), load_config_dom.
    rewrite size_list_to_set by done. by rewrite length_fmap.
Qed.

Lemma load_config_NoDup_keeps_all_witness :
  NoDup (SerialNumber <$> [entry_a1; entry_b2]) /\
  load_config [entry_a1; entry_b2] !! "B2" = Some (defaults entry_b2) /\
  size (load_config [entry_a1; entry_b2]) = 2%nat.
Proof.
  assert (Hnd : NoDup (SerialNumber <$> [entry_a1; entry_b2])).
  { apply (bool_decide_unpack (NoDup (SerialNumber <$> [entry_a1; entry_b2]))).
    vm_compute. exact I. }
  destruct (load_config_NoDup_keeps_all [entry_a1; entry_b2] Hnd) as [Hall Hsize].
  split; [exact Hnd|]. split; [|exact Hsize].
  apply (Hall entry_b2). apply list_elem_of_In. right. left. reflexivity.
Defined.

(** The working set is a fixed point of the loop: loading the retained
    entries again, in whatever order, gives the same map. *)
Theorem load_config_fixed_point (cfg l : list Ecoflow) :
  l ≡ₚ snd <$> map_to_list (load_config cfg) ->
  load_config l = load_config cfg.
Proof.
  intros Hperm.
  assert (Hmem : forall y, y ∈ l -> load_config cfg !! SerialNumber y = Some y).
  { intros y Hy. rewrite Hperm in Hy.
    apply list_elem_of_fmap in Hy as ([k y'] & -> & Hk).
    apply elem_of_map_to_list in Hk. simpl.
    destruct (load_config_entry _ _ _ Hk) as (-> & _). exact Hk. }
  apply map_eq. intros sn. rewrite load_config_lookup.
  destruct (load_config cfg !! sn) as [e|] eqn:Hsn.
  - destruct (load_config_entry _ _ _ Hsn) as (Hkey & Hfix & _).
    assert (Hin : e ∈ l).
    { rewrite Hperm. apply list_elem_of_fmap. exists (sn, e). split; [done|].
      by apply elem_of_map_to_list. }
    destruct (list_find_elem_of (fun c => SerialNumber c = sn) _ e Hin Hkey)
      as [[i y] Hfind].
    rewrite Hfind. simpl. f_equal.
    apply list_find_Some in Hfind as (Hi & Hy & _).
    apply list_elem_of_lookup_2, Hmem in Hi. rewrite Hy, Hsn in Hi.
    injection Hi as <-. exact Hfix.
  - destruct (list_find _ _) as [[i y]|] eqn:Hfind; [|done].
    apply list_find_Some in Hfind as (Hi & Hy & _).
    apply list_elem_of_lookup_2, Hmem in Hi. congruence.
Qed.

Lemma load_config_fixed_point_witness :
  [defaults entry_b2; defaults entry_a1] ≡ₚ snd <$> map_to_list (load_config config_dup) /\
  load_config [defaults entry_b2; defaults entry_a1] = load_config config_dup.
Proof.
  assert (Hperm : [defaults entry_b2; defaults entry_a1]
                    ≡ₚ snd <$> map_to_list (load_config config_dup)).
  { assert (Hm : load_config config_dup
                 = <["B2" := defaults entry_b2]> {[ "A1" := defaults entry_a1 ]}).
    { apply map_eq. intros sn. rewrite load_config_lookup. simpl.
      destruct (decide ("A1" = sn)) as [<- | Ha]; [reflexivity|].
      destruct (decide ("B2" = sn)) as [<- | Hb]; [reflexivity|].
      simpl. destruct (decide ("A1" = sn)); [done|].
      by rewrite lookup_insert_ne, lookup_singleton_ne. }
    rewrite Hm, map_to_list_insert by reflexivity.
    by rewrite map_to_list_singleton. }
  split; [exact Hperm|].
  exact (load_config_fixed_point config_dup _ Hperm).
Defined.

(** A retained device has an empty description only when its serial number
    is empty too: with a serial number, the description label is never
    empty. *)
Theorem load_config_description_nonempty (cfg : list Ecoflow) (sn : string) (e : Ecoflow) :
  load_config cfg !! sn = Some e ->
  sn <> EmptyString ->
  Description e <> EmptyString.
Proof.
  intros Hsn Hne.
  destruct (load_config_entry _ _ _ Hsn) as (Hkey & Hfix & _).
  intros Hd. unfold defaults in Hfix. rewrite Hd in Hfix. simpl in Hfix.
  apply (f_equal Description) in Hfix. simpl in Hfix. congruence.
Qed.

Lemma load_config_description_nonempty_witness :
  load_config config_dup !! "A1" = Some (defaults entry_a1) /\
  "A1" <> EmptyString /\
  Description (defaults entry_a1) <> EmptyString.
Proof.
  assert (Hl : load_config config_dup !! "A1" = Some (defaults entry_a1))
    by (vm_compute; reflexivity).
  assert (Hne : "A1" <> EmptyString) by discriminate.
  split; [exact Hl|]. split; [exact Hne|].
  exact (load_config_description_nonempty config_dup "A1" (defaults entry_a1) Hl Hne).
Defined.

Lemma load_config_one_serial (c : Ecoflow) (cfg : list Ecoflow) :
  Forall (fun c' => SerialNumber c' = SerialNumber c) cfg ->
  load_config (c :: cfg) = {[ SerialNumber c := defaults c ]}.
Proof.
  intros Hsame. apply map_eq. intros sn. rewrite load_config_lookup. simpl.
  destruct (decide (SerialNumber c = sn)) as [<- | Hne].
  - by rewrite lookup_singleton_eq.
  - rewrite lookup_singleton_ne by done.
    assert (Hnone : list_find (fun c0 => SerialNumber c0 = sn) cfg = None).
    { apply list_find_None. eapply Forall_impl; [exact Hsame|].
      simpl. intros c' Hc'. congruence. }
    by rewrite Hnone.
Qed.

(** Entries that share a serial number collapse into one device, whatever
    else they hold: a list whose entries all carry the serial number of the
    first yields that first entry, defaulted, and nothing else.  This is what
    happens to entries without a serial number, which all stand under the
    empty key. *)
Theorem load_config_same_serial (c : Ecoflow) (cfg : list Ecoflow) :
  Forall (fun c' => SerialNumber c' = SerialNumber c) cfg ->
  load_config (c :: cfg) = {[ SerialNumber c := defaults c ]}.
Proof. apply load_config_one_serial. Qed.

Lemma load_config_same_serial_witness :
  Forall (fun c' => SerialNumber c' = SerialNumber entry_a1) [entry_a1_again; entry_a1] /\
  load_config [entry_a1; entry_a1_again; entry_a1] = {[ "A1" := defaults entry_a1 ]}.
Proof.
  assert (Hsame : Forall (fun c' => SerialNumber c' = SerialNumber entry_a1)
                         [entry_a1_again; entry_a1])
    by (repeat constructor).
  split; [exact Hsame|].
  exact (load_config_same_serial entry_a1 [entry_a1_again; entry_a1] Hsame).
Defined.

(** ** The descriptors of an exporter *)

(** The metrics a device is exposed under: [CreateExporters] gives the five
    gauges the names ecoflow_soc, ecoflow_remain_time, ecoflow_watts_in_sum,
    ecoflow_watts_out_sum and ecoflow_check_error (the order is that of
    [Describe]), and each carries exactly two constant labels, the
    description and the serial number of the device. *)
Theorem CreateExporters_descriptors (e : Ecoflow) (timeout : Duration) :
  exists x : EcoflowExporter,
    CreateExporters e timeout = (Some x, None) /\
    prometheus.fqName <$> Describe x [] =
      ["ecoflow_soc"; "ecoflow_remain_time"; "ecoflow_watts_in_sum";
       "ecoflow_watts_out_sum"; "ecoflow_check_error"] /\
    Forall (fun d =>
              prometheus.constLabels d !! "description" = Some (Description e) /\
              prometheus.constLabels d !! "sn" = Some (SerialNumber e) /\
              dom (prometheus.constLabels d) = ({["description"; "sn"]} : gset string))
           (Describe x []).
Proof.
  eexists. split; [reflexivity|]. split; [reflexivity|].
  assert (Hl : device_labels e !! "description" = Some (Description e) /\
               device_labels e !! "sn" = Some (SerialNumber e) /\
               dom (device_labels e) = ({["description"; "sn"]} : gset string)).
  { unfold device_labels. split_and!.
    - by rewrite lookup_insert_eq.
    - by rewrite lookup_insert_ne, lookup_insert_eq.
    - by rewrite !dom_insert_L, dom_empty_L, (right_id_L ∅ (∪)). }
  unfold Describe. simpl. repeat apply Forall_cons_2; try exact Hl. apply Forall_nil_2.
Qed.

Lemma created_sn_label (e : Ecoflow) (timeout : Duration) (x : EcoflowExporter)
    (d : prometheus.Desc) :
  CreateExporters e timeout = (Some x, None) ->
  d ∈ Describe x [] ->
  prometheus.constLabels d !! "sn" = Some (SerialNumber e).
Proof.
  intros [= <-] Hd. unfold Describe in Hd. simpl in Hd.
  repeat (apply elem_of_cons in Hd as [-> | Hd];
          [simpl; unfold device_labels; by rewrite lookup_insert_ne, lookup_insert_eq|]).
  by apply elem_of_nil in Hd.
Qed.

Lemma created_NoDup (e : Ecoflow) (timeout : Duration) (x : EcoflowExporter) :
  CreateExporters e timeout = (Some x, None) -> NoDup (Describe x []).
Proof.
  intros [= <-].
  apply (NoDup_fmap_1 prometheus.fqName).
  apply (bool_decide_unpack (NoDup ["ecoflow_soc"; "ecoflow_remain_time";
           "ecoflow_watts_in_sum"; "ecoflow_watts_out_sum"; "ecoflow_check_error"])).
  vm_compute. exact I.
Qed.

(** ** Start-up *)

(** What the second loop returns when it returns: the exporters already
    registered, followed by one exporter per entry, in order. *)
Lemma register_all_inl (sys : Sys) (timeout : Duration) (entries : list Ecoflow) :
  forall registered xs,
    register_all sys entries timeout registered = inl xs ->
    exists new,
      xs = registered ++ new /\
      Forall2 (fun e x => CreateExporters e timeout = (Some x, None)) entries new.
Proof.
  induction entries as [|e entries IH]; intros registered xs Hrun; simpl in Hrun.
  - injection Hrun as <-. exists []. by rewrite (right_id_L [] (++)).
  - unfold MustRegister in Hrun.
    destruct (prometheus_Register sys registered _) as [err|]; [done|].
    apply IH in Hrun as (new & -> & Hnew).
    eexists (_ :: new). split; [by rewrite <- (assoc_L (++))|].
    by apply Forall2_cons.
Qed.

Lemma created_fields (e : Ecoflow) (timeout : Duration) (x : EcoflowExporter) :
  CreateExporters e timeout = (Some x, None) ->
  ecoflow x = e /\ checkTimeout x = timeout.
Proof. by intros [= <-]. Qed.

Lemma all_descriptors_NoDup (timeout : Duration) (entries : list Ecoflow) :
  forall xs,
    Forall2 (fun e x => CreateExporters e timeout = (Some x, None)) entries xs ->
    NoDup (SerialNumber <$> entries) ->
    NoDup (all_descriptors xs).
Proof.
  induction entries as [|e entries IH]; intros xs Hall Hnd.
  - apply Forall2_nil_inv_l in Hall as ->. apply NoDup_nil_2.
  - apply Forall2_cons_inv_l in Hall as (x & xs' & Hx & Hall & ->).
    rewrite fmap_cons in Hnd. apply NoDup_cons in Hnd as [Hfresh Hnd].
    unfold all_descriptors. rewrite bind_cons. apply NoDup_app. split_and!.
    + by eapply created_NoDup.
    + intros d Hd Hd'.
      apply list_elem_of_bind in Hd' as (x' & Hdx' & Hx').
      apply list_elem_of_lookup in Hx' as [i Hi].
      destruct (Forall2_lookup_r _ _ _ _ _ Hall Hi) as (e' & He' & Hcreated).
      pose proof (created_sn_label _ _ _ _ Hx Hd) as Hsn.
      pose proof (created_sn_label _ _ _ _ Hcreated Hdx') as Hsn'.
      apply Hfresh. apply list_elem_of_fmap. exists e'. split; [congruence|].
      by eapply list_elem_of_lookup_2.
    + by apply IH.
Qed.

Lemma load_config_values_NoDup (cfg : list Ecoflow) (l : list (string * Ecoflow)) :
  l ≡ₚ map_to_list (load_config cfg) ->
  NoDup (SerialNumber <$> (snd <$> l)).
Proof.
  intros Hperm. rewrite Hperm.
  assert (Heq : SerialNumber <$> (snd <$> map_to_list (load_config cfg))
                = fst <$> map_to_list (load_config cfg)).
  { rewrite <- list_fmap_compose. apply list_fmap_ext.
    intros i [k e] Hi%list_elem_of_lookup_2%elem_of_map_to_list. simpl.
    by destruct (load_config_entry _ _ _ Hi) as [? _]. }
  rewrite Heq. apply NoDup_fst_map_to_list.
Qed.

(** What the parts of [main_startup] were when it returns. *)
Lemma main_startup_inl (sys : Sys) (flags opts : Options) (xs : list EcoflowExporter) :
  main_startup sys flags = inl (opts, xs) ->
  main_options sys flags = inl opts /\
  exists config decoded,
    os_ReadFile sys (opt_configFile opts) = inl config /\
    yaml_Unmarshal sys config (replicate 256 Ecoflow_zero) = (decoded, None) /\
    Forall2 (fun e x => CreateExporters e (opt_checkTimeout opts) = (Some x, None))
            (snd <$> map_range sys (load_config decoded)) xs.
Proof.
  unfold main_startup. intros Hrun.
  destruct (main_options sys flags) as [opts'|c]; [|done].
  destruct (os_ReadFile sys _) as [config|err] eqn:Hread; [|done].
  destruct (yaml_Unmarshal sys config _) as [decoded [err|]] eqn:Hyaml; [done|].
  destruct (register_all sys _ _ _) as [xs'|c] eqn:Hreg; [|done].
  injection Hrun as -> ->. split; [done|].
  exists config, decoded. split_and!; [done..|].
  by apply register_all_inl in Hreg as (new & -> & Hnew).
Qed.

(** When start-up reaches the point of serving, it has registered one
    exporter per distinct serial number of the decoded configuration, each
    for the retained (first, defaulted) entry of that serial number, and
    every exporter carries the one timeout that start-up resolved.  This
    holds whatever the order of the iteration over the map. *)
Theorem main_startup_one_exporter_per_device
    (sys : Sys) (flags opts : Options) (xs : list EcoflowExporter) :
  fair_range sys ->
  main_startup sys flags = inl (opts, xs) ->
  exists config decoded,
    os_ReadFile sys (opt_configFile opts) = inl config /\
    yaml_Unmarshal sys config (replicate 256 Ecoflow_zero) = (decoded, None) /\
    ecoflow <$> xs ≡ₚ snd <$> map_to_list (load_config decoded) /\
    length xs = length (serial_numbers decoded) /\
    Forall (fun x => checkTimeout x = opt_checkTimeout opts) xs.
Proof.
  intros Hfair (_ & config & decoded & Hread & Hyaml & Hall)%main_startup_inl.
  exists config, decoded. split_and!; [done..| | |].
  - rewrite <- (Hfair (load_config decoded)).
    clear Hread Hyaml. induction Hall as [|e x es xs' Hx _ IH]; [done|].
    rewrite !fmap_cons, IH. by apply created_fields in Hx as [-> _].
  - rewrite <- (Forall2_length _ _ _ Hall), length_fmap, (Hfair (load_config decoded)).
    rewrite length_map_to_list.
    rewrite <- (size_dom (D := gset string)), load_config_dom. unfold serial_numbers.
    rewrite <- (size_list_to_set (C := gset string) (remove_dups _))
      by apply NoDup_remove_dups.
    f_equal. apply set_eq. intros s.
    by rewrite !elem_of_list_to_set, elem_of_remove_dups.
  - clear Hread Hyaml. induction Hall as [|e x es xs' Hx _ IH]; [done|].
    apply Forall_cons. split; [|done]. by apply created_fields in Hx as [_ ->].
Qed.

(** The descriptors of the exporters that start-up registers are pairwise
    distinct: within one exporter by name, between two exporters by the
    serial-number label.  This is what the deduplication by serial number
    buys. *)
Theorem main_startup_descriptors_distinct
    (sys : Sys) (flags opts : Options) (xs : list EcoflowExporter) :
  fair_range sys ->
  main_startup sys flags = inl (opts, xs) ->
  NoDup (all_descriptors xs).
Proof.
  intros Hfair (_ & config & decoded & _ & _ & Hall)%main_startup_inl.
  eapply all_descriptors_NoDup; [exact Hall|].
  apply (load_config_values_NoDup decoded), Hfair.
Qed.

Lemma lab_sys_fair (vars files : gmap string string) : fair_range (lab_sys vars files).
Proof. intros m. simpl. apply reverse_Permutation. Qed.

Lemma main_startup_one_exporter_per_device_witness :
  fair_range (lab_sys ∅ lab_files) /\
  exists opts xs,
    main_startup (lab_sys ∅ lab_files) flags_default = inl (opts, xs) /\
    exists config decoded,
      os_ReadFile (lab_sys ∅ lab_files) (opt_configFile opts) = inl config /\
      yaml_Unmarshal (lab_sys ∅ lab_files) config (replicate 256 Ecoflow_zero)
        = (decoded, None) /\
      ecoflow <$> xs ≡ₚ snd <$> map_to_list (load_config decoded) /\
      length xs = length (serial_numbers decoded) /\
      Forall (fun x => checkTimeout x = opt_checkTimeout opts) xs.
Proof.
  split; [apply lab_sys_fair|].
  destruct (main_startup (lab_sys ∅ lab_files) flags_default) as [[opts xs]|c] eqn:Hrun;
    [|vm_compute in Hrun; discriminate].
  exists opts, xs. split; [reflexivity|].
  exact (main_startup_one_exporter_per_device _ _ _ _ (lab_sys_fair ∅ lab_files) Hrun).
Defined.

Lemma main_startup_descriptors_distinct_witness :
  fair_range (lab_sys ∅ lab_files) /\
  exists opts xs,
    main_startup (lab_sys ∅ lab_files) flags_default = inl (opts, xs) /\
    length xs = 2%nat /\
    NoDup (all_descriptors xs).
Proof.
  split; [apply lab_sys_fair|].
  destruct (main_startup (lab_sys ∅ lab_files) flags_default) as [[opts xs]|c] eqn:Hrun;
    [|vm_compute in Hrun; discriminate].
  exists opts, xs. split; [reflexivity|]. split.
  - vm_compute in Hrun. injection Hrun as _ <-. reflexivity.
  - exact (main_startup_descriptors_distinct _ _ _ _ (lab_sys_fair ∅ lab_files) Hrun).
Defined.

(** An empty configuration document does not mean no device: when the
    decoder leaves the buffer of 256 zero entries as [main] allocated it,
    start-up registers exactly one exporter, for a device whose serial number
    and description are empty. *)
Theorem main_startup_untouched_buffer
    (sys : Sys) (flags opts : Options) (xs : list EcoflowExporter) :
  fair_range sys ->
  main_startup sys flags = inl (opts, xs) ->
  (forall config,
     os_ReadFile sys (opt_configFile opts) = inl config ->
     yaml_Unmarshal sys config (replicate 256 Ecoflow_zero)
       = (replicate 256 Ecoflow_zero, None)) ->
  exists x, xs = [x] /\ ecoflow x = Ecoflow_zero.
Proof.
  intros Hfair (_ & config & decoded & Hread & Hyaml & Hall)%main_startup_inl Hsame.
  rewrite (Hsame config Hread) in Hyaml.
  assert (decoded = replicate 256 Ecoflow_zero) as -> by congruence.
  change (replicate 256 Ecoflow_zero)
    with (Ecoflow_zero :: replicate 255 Ecoflow_zero) in Hall.
  rewrite (load_config_one_serial Ecoflow_zero (replicate 255 Ecoflow_zero)) in Hall
    by by apply Forall_replicate.
  pose proof (Hfair {[ SerialNumber Ecoflow_zero := defaults Ecoflow_zero ]}) as Hone.
  rewrite map_to_list_singleton in Hone. apply Permutation_singleton_r in Hone.
  rewrite Hone in Hall. simpl in Hall.
  apply Forall2_cons_inv_l in Hall as (x & xs' & Hx & Hnil & ->).
  apply Forall2_nil_inv_l in Hnil as ->.
  exists x. split; [done|]. by apply created_fields in Hx as [-> _].
Qed.

Lemma main_startup_untouched_buffer_witness :
  fair_range (lab_sys ∅ lab_files_empty) /\
  exists opts xs,
    main_startup (lab_sys ∅ lab_files_empty) flags_default = inl (opts, xs) /\
    exists x, xs = [x] /\ ecoflow x = Ecoflow_zero.
Proof.
  split; [apply lab_sys_fair|].
  destruct (main_startup (lab_sys ∅ lab_files_empty) flags_default)
    as [[opts xs]|c] eqn:Hrun; [|vm_compute in Hrun; discriminate].
  exists opts, xs. split; [reflexivity|].
  apply (main_startup_untouched_buffer _ _ _ _ (lab_sys_fair ∅ lab_files_empty) Hrun).
  assert (Hopts : opts = flags_default)
    by (vm_compute in Hrun; injection Hrun as <- _; reflexivity).
  rewrite Hopts. intros config [= <-]. reflexivity.
Defined.

(** The environment is consulted only for a variable that has its default
    value: when each of the four variables either differs from its default
    or has no (or an empty) environment variable, the options are the flag
    values, and [CHECK_TIMEOUT] is not parsed, so it cannot make start-up
    panic. *)
Theorem main_options_keeps_flags (sys : Sys) (flags : Options) :
  (opt_listen flags <> listenDefault \/ os_Getenv sys "LISTEN" = EmptyString) ->
  (opt_configFile flags <> configFileDefault \/ os_Getenv sys "CONFIG_FILE" = EmptyString) ->
  (opt_metricsPath flags <> metricsPathDefault \/ os_Getenv sys "METRICS_PATH" = EmptyString) ->
  (opt_checkTimeout flags <> checkTimeoutDefault \/ os_Getenv sys "CHECK_TIMEOUT" = EmptyString) ->
  main_options sys flags = inl flags.
Proof.
  assert (Hfrom : forall value dflt key,
            value <> dflt \/ os_Getenv sys key = EmptyString ->
            from_env sys value dflt key = value).
  { intros value dflt key [Hne | Hempty]; unfold from_env.
    - by destruct (String.eqb_spec value dflt).
    - rewrite Hempty. simpl. by rewrite andb_false_r. }
  intros Hl Hc Hm Ht. unfold main_options.
  rewrite (Hfrom _ _ _ Hl), (Hfrom _ _ _ Hc), (Hfrom _ _ _ Hm).
  assert (Hcond : (opt_checkTimeout flags =? checkTimeoutDefault)%Z
                  && (0 <? String.length (os_Getenv sys "CHECK_TIMEOUT"))%nat = false).
  { destruct Ht as [Hne | Hempty].
    - by destruct (Z.eqb_spec (opt_checkTimeout flags) checkTimeoutDefault).
    - rewrite Hempty. simpl. by rewrite andb_false_r. }
  rewrite Hcond. by destruct flags.
Qed.

Lemma main_options_keeps_flags_witness :
  main_options
    (lab_sys {[ "CHECK_TIMEOUT" := "soon"; "LISTEN" := "127.0.0.1:9000" ]} lab_files)
    {| opt_listen := ":8080"; opt_configFile := configFileDefault;
       opt_metricsPath := metricsPathDefault; opt_checkTimeout := 1000000000%Z |}
  = inl {| opt_listen := ":8080"; opt_configFile := configFileDefault;
           opt_metricsPath := metricsPathDefault; opt_checkTimeout := 1000000000%Z |}.
Proof.
  apply main_options_keeps_flags.
  - left. discriminate.
  - right. reflexivity.
  - right. reflexivity.
  - left. discriminate.
Defined.

(** Option handling fails in one way only: it panics exactly when the
    timeout flag has its default value, [CHECK_TIMEOUT] is set to a
    non-empty text, and that text is not a duration. *)
Theorem main_options_panic_iff (sys : Sys) (flags : Options) (c : crash) :
  main_options sys flags = inr c <->
  opt_checkTimeout flags = checkTimeoutDefault /\
  os_Getenv sys "CHECK_TIMEOUT" <> EmptyString /\
  exists err,
    time_ParseDuration sys (os_Getenv sys "CHECK_TIMEOUT") = inr err /\ c = Panic err.
Proof.
  unfold main_options.
  destruct (Z.eqb_spec (opt_checkTimeout flags) checkTimeoutDefault) as [Ht | Ht]; simpl.
  - destruct (os_Getenv sys "CHECK_TIMEOUT") as [|b text] eqn:Henv; simpl.
    + split; [done | by intros (_ & ? & _)].
    + destruct (time_ParseDuration sys (String b text)) as [d | err].
      * split; [done | by intros (_ & _ & err & [=] & _)].
      * split.
        -- intros [= <-]. split_and!; [done..|]. by exists err.
        -- by intros (_ & _ & err' & [= <-] & ->).
  - split; [done | by intros (? & _)].
Qed.




(** ** One request *)






(** A call that returns an error returns the zero reading with it: what
    the decoder may have filled in before it failed is dropped, and the code
    of the reading is empty. *)
Theorem getEcoflowApiData_error_zero (env : Env) (e : Ecoflow) (t : Duration) (w w' : World)
    (r : EcoflowApi) (err : error) :
  getEcoflowApiData env e t w = (Return (r, Some err), w') ->
  r = EcoflowApi_zero.
Proof.
  intros Hrun. pose proof (getEcoflowApiData_run env e t w) as H.
  destruct (url_Parse env _); [congruence|].
  destruct H as (req & r0 & err0 & _ & _ & Hrun0 & _ & _ & Hzero).
  rewrite Hrun in Hrun0. injection Hrun0 as <- <- _. by apply Hzero.
Qed.

(** The status code of the response has no influence: replacing every
    status code by another leaves the result of a call, and hence of a
    collection cycle, as it is. *)
Theorem getEcoflowApiData_status_blind (f : Z -> Z) (env : Env) :
  (forall e t w, getEcoflowApiData (restatus f env) e t w = getEcoflowApiData env e t w) /\
  (forall x w, Collect (restatus f env) x w = Collect env x w).
Proof.
  assert (Hfetch : forall e t w,
            getEcoflowApiData (restatus f env) e t w = getEcoflowApiData env e t w).
  { intros e t w. run_fetch. simpl.
    destruct (url_Parse env _); [reflexivity|].
    destruct (http_Do env _ _ _) as [res | getErr]; reflexivity. }
  split; [exact Hfetch|].
  intros x w. unfold Collect, bind. by rewrite Hfetch.
Qed.

Lemma getEcoflowApiData_error_zero_witness :
  exists w',
    getEcoflowApiData partial_decoder device1 five_seconds World_init
      = (Return (EcoflowApi_zero, Some (errorString "unexpected end of JSON input")), w') /\
    EcoflowApi_zero = EcoflowApi_zero.
Proof.
  eexists. split; [vm_compute; reflexivity|].
  eapply (getEcoflowApiData_error_zero partial_decoder device1 five_seconds World_init).
  vm_compute. reflexivity.
Defined.

(** ** Cycles and scrapes *)

(** A cycle that returns, taken apart: the call to the API returned, the
    five gauges went on the channel, and the exporter is the old one with
    the gauges of one of the two branches written and the mutex free. *)
Lemma Collect_Return (env : Env) (x x' : EcoflowExporter) (w w' : World) :
  Collect env x w = (Return x', w') ->
  exists res err w1,
    getEcoflowApiData env (ecoflow x) (checkTimeout x) w = (Return (res, err), w1) /\
    sent w' = sent w1 /\
    chan w' = chan w ++ five_gauges /\
    x' = with_mutex
           (if check_failed res err
            then set_checkError (with_mutex x true) 1%float
            else set_wattsoutsum
                   (set_wattsinsum
                      (set_remaintime
                         (set_soc (with_mutex x true) (Soc (Data res)))
                         (RemainTime (Data res)))
                      (WattsInSum (Data res)))
                   (WattsOutSum (Data res)))
           false.
Proof.
  pose proof (getEcoflowApiData_chan env (ecoflow x) (checkTimeout x) w) as Hchan.
  unfold Collect, bind. cbn [ecoflow checkTimeout with_mutex].
  destruct (getEcoflowApiData env (ecoflow x) (checkTimeout x) w)
    as [[[res err] | status] w1] eqn:Hfetch; [|done].
  simpl in Hchan. intros Hrun. exists res, err, w1. split; [done|].
  destruct (check_failed res err);
    unfold Collect_deferred, bind, send, ret in Hrun; simpl in Hrun;
    injection Hrun as <- <-; simpl; rewrite Hchan, <- !(assoc_L (++)); done.
Qed.

(** What a cycle never touches: the device, the timeout and the
    descriptors of the five gauges. *)
Lemma Collect_identity (env : Env) (x x' : EcoflowExporter) (w w' : World) :
  Collect env x w = (Return x', w') ->
  ecoflow x' = ecoflow x /\ checkTimeout x' = checkTimeout x /\
  mutex x' = false /\
  (forall m, prometheus.desc (gauge_of x' m) = prometheus.desc (gauge_of x m)) /\
  (prometheus.val (checkError x') = 1%float \/ checkError x' = checkError x).
Proof.
  intros (res & err & w1 & _ & _ & _ & ->)%Collect_Return.
  destruct (check_failed res err); simpl;
    (split_and!; [done | done | done | by intros [] | auto]).
Qed.


Lemma scrapes_check_error_sticky (env : Env) (n : nat) :
  forall (x x' : EcoflowExporter) (w w' : World),
    prometheus.val (checkError x) = 1%float ->
    scrapes env n x w = (Return x', w') ->
    prometheus.val (checkError x') = 1%float.
Proof.
  induction n as [|n IH]; intros x x' w w' Hone Hrun; simpl in Hrun.
  - by injection Hrun as <- _.
  - unfold bind in Hrun.
    destruct (Collect env x w) as [[x1 | status] w1] eqn:Hcycle; [|done].
    apply (IH x1 x' w1 w'); [|done].
    destruct (Collect_identity _ _ _ _ _ Hcycle) as (_ & _ & _ & _ & [H | H]);
      [done | by rewrite H].
Qed.

(** The check-error gauge latches: once it holds 1, it holds 1 after any
    number of further scrapes, whatever the API answers.  No cycle ever
    writes another value to it. *)
Theorem scrapes_check_error_latches
    (env : Env) (n : nat) (x x' : EcoflowExporter) (w w' : World) :
  prometheus.val (checkError x) = 1%float ->
  scrapes env n x w = (Return x', w') ->
  prometheus.val (checkError x') = 1%float.
Proof. apply scrapes_check_error_sticky. Qed.

Lemma scrapes_check_error_latches_witness :
  prometheus.val (checkError (set_checkError exporter_55 1%float)) = 1%float /\
  exists x' w',
    scrapes (lab [respond 200 body_full; respond 200 body_full]) 2
            (set_checkError exporter_55 1%float) World_init = (Return x', w') /\
    telemetry x' = [55%float; 120%float; 30%float; 0%float] /\
    prometheus.val (checkError x') = 1%float.
Proof.
  split; [reflexivity|].
  destruct (scrapes (lab [respond 200 body_full; respond 200 body_full]) 2
              (set_checkError exporter_55 1%float) World_init)
    as [[x' | status] w'] eqn:Hrun; [|vm_compute in Hrun; discriminate].
  exists x', w'. split; [reflexivity|]. split.
  - vm_compute in Hrun. injection Hrun as <- _. reflexivity.
  - exact (scrapes_check_error_latches _ 2 (set_checkError exporter_55 1%float)
             x' World_init w' eq_refl Hrun).
Defined.




(** The identity of an exporter survives any number of scrapes: its
    device, its timeout and what [Describe] sends stay as they were, and the
    gauges that the cycles send are the ones whose descriptors [Describe]
    announced at the start, in the same order. *)
Theorem scrapes_keep_descriptors
    (env : Env) (n : nat) (x x' : EcoflowExporter) (w w' : World) :
  scrapes env n x w = (Return x', w') ->
  ecoflow x' = ecoflow x /\
  checkTimeout x' = checkTimeout x /\
  (forall ch, Describe x' ch = Describe x ch) /\
  (prometheus.desc ∘ gauge_of x') <$> five_gauges = Describe x [].
Proof.
  revert x w. induction n as [|n IH]; intros x w Hrun; simpl in Hrun.
  - by injection Hrun as <- _.
  - unfold bind in Hrun.
    destruct (Collect env x w) as [[x1 | status] w1] eqn:Hcycle; [|done].
    destruct (Collect_identity _ _ _ _ _ Hcycle) as (He & Ht & _ & Hdesc & _).
    destruct (IH x1 w1 Hrun) as (He' & Ht' & Hd' & Hg').
    assert (Hd1 : forall ch, Describe x1 ch = Describe x ch).
    { intros ch. unfold Describe.
      pose proof (Hdesc ref_soc) as H1. pose proof (Hdesc ref_remaintime) as H2.
      pose proof (Hdesc ref_wattsinsum) as H3. pose proof (Hdesc ref_wattsoutsum) as H4.
      pose proof (Hdesc ref_checkError) as H5. simpl in H1, H2, H3, H4, H5.
      by rewrite H1, H2, H3, H4, H5. }
    split_and!; [congruence | congruence | |].
    + intros ch. by rewrite Hd'.
    + by rewrite Hg'.
Qed.

Lemma scrapes_keep_descriptors_witness :
  exists x' w',
    scrapes (lab [respond 200 body_full; inr timeout_error]) 2
            (exporter_of device1 five_seconds) World_init = (Return x', w') /\
    ecoflow x' = ecoflow (exporter_of device1 five_seconds) /\
    checkTimeout x' = checkTimeout (exporter_of device1 five_seconds) /\
    (forall ch, Describe x' ch = Describe (exporter_of device1 five_seconds) ch) /\
    (prometheus.desc ∘ gauge_of x') <$> five_gauges
      = Describe (exporter_of device1 five_seconds) [].
Proof.
  destruct (scrapes (lab [respond 200 body_full; inr timeout_error]) 2
              (exporter_of device1 five_seconds) World_init)
    as [[x' | status] w'] eqn:Hrun; [|vm_compute in Hrun; discriminate].
  exists x', w'. split; [reflexivity|].
  exact (scrapes_keep_descriptors _ _ _ _ _ _ Hrun).
Defined.

(** During an outage of any length the telemetry is frozen: when the URL
    of the device parses and every exchange fails, any number of scrapes
    returns, the four telemetry gauges hold what they held before, and after
    at least one scrape the check-error gauge holds 1. *)
Theorem scrapes_outage_freezes_telemetry
    (env : Env) (n : nat) (x : EcoflowExporter) (w : World) :
  url_Parse env (query_url (SerialNumber (ecoflow x))) = None ->
  (forall k c req, exists err, http_Do env k c req = inr err) ->
  exists x' w',
    scrapes env n x w = (Return x', w') /\
    telemetry x' = telemetry x /\
    ((0 < n)%nat -> prometheus.val (checkError x') = 1%float).
Proof.
  intros Hurl Hdown. revert x w Hurl.
  induction n as [|n IH]; intros x w Hurl; simpl.
  - exists x, w. split_and!; [done | done | lia].
  - pose proof (getEcoflowApiData_run env (ecoflow x) (checkTimeout x) w) as Hfetch.
    rewrite Hurl in Hfetch.
    destruct Hfetch as (req & r & err & _ & _ & Hrun & Hfail & _).
    destruct (Hdown (length (sent w)) {| http.Timeout := checkTimeout x |} req)
      as [getErr Hdo].
    assert (Herr : err = Some getErr).
    { apply Hfail. rewrite Hdo. apply failure_exchange. }
    subst err.
    unfold bind, Collect. cbn [ecoflow checkTimeout with_mutex].
    unfold bind. rewrite Hrun. cbn beta iota. cbn [check_failed].
    unfold Collect_deferred, bind, send, ret. cbn beta iota.
    match goal with |- context [scrapes env n ?x1 ?w1] =>
      destruct (IH x1 w1) as (x' & w' & Hrest & Htel & _); [exact Hurl|] end.
    exists x', w'. split; [exact Hrest|]. split; [exact Htel|].
    intros _.
    eapply (scrapes_check_error_sticky env n); [|exact Hrest]. reflexivity.
Qed.

Lemma scrapes_outage_freezes_telemetry_witness :
  url_Parse outage (query_url (SerialNumber (ecoflow exporter_55))) = None /\
  (forall k c req, exists err, http_Do outage k c req = inr err) /\
  exists x' w',
    scrapes outage 3 exporter_55 World_init = (Return x', w') /\
    telemetry x' = telemetry exporter_55 /\
    ((0 < 3)%nat -> prometheus.val (checkError x') = 1%float).
Proof.
  assert (Hdown : forall k c req, exists err, http_Do outage k c req = inr err)
    by (intros k c req; eexists; reflexivity).
  split; [reflexivity|]. split; [exact Hdown|].
  exact (scrapes_outage_freezes_telemetry outage 3 exporter_55 World_init eq_refl Hdown).
Defined.

Lemma Collect_success_witness :
  exists w1,
    getEcoflowApiData (lab [respond 200 body_full])
        (ecoflow (set_checkError exporter_55 1%float))
        (checkTimeout (set_checkError exporter_55 1%float)) World_init
      = (Return (reading_full, None), w1) /\
    Code reading_full = "0" /\
    exists x' w',
      Collect (lab [respond 200 body_full]) (set_checkError exporter_55 1%float) World_init
        = (Return x', w') /\
      checkError x' = checkError (set_checkError exporter_55 1%float) /\
      telemetry x' = [Soc (Data reading_full); RemainTime (Data reading_full);
                      WattsOutSum (Data reading_full); WattsInSum (Data reading_full)].
Proof.
  eexists. split; [vm_compute; reflexivity|]. split; [reflexivity|].
  eapply (Collect_success (lab [respond 200 body_full])
            (set_checkError exporter_55 1%float) World_init).
  - vm_compute. reflexivity.
  - reflexivity.
Defined.
